(** * psc-lab: the resource graph declared by [StackA]

    The repository is a CDKTF program.  Each of its two source files
    ([src/main.ts] and a second version of the same stack) defines a class
    [StackA] whose constructor declares Google Cloud resources, and ends with
    the three statements

      const app = new App(); new StackA(app, "lab"); app.synth();

    The development embeds the constructors as computations in a state and
    error monad over the construct tree, and proves the properties of the
    declared resource graph. *)

From Stdlib Require Import String Ascii List ZArith Bool Lia.
Import ListNotations.
Set Warnings "-register-all".
Open Scope string_scope.

(** ** Results and the state monad the constructors run in *)

Inductive Error : Type :=
| DuplicateConstruct (scope_id : string) (cid : string)
| NoSuchObject (ref : nat).

Inductive Result (A : Type) : Type :=
| Ok (a : A)
| Throw (e : Error).
Arguments Ok {A} a.
Arguments Throw {A} e.

Definition St (S A : Type) : Type := S -> Result (A * S).

Definition ret {S A : Type} (a : A) : St S A := fun s => Ok (a, s).

Definition bind {S A B : Type} (m : St S A) (k : A -> St S B) : St S B :=
  fun s =>
    match m s with
    | Ok (a, s') => k a s'
    | Throw e => Throw e
    end.

Declare Scope build_scope.
Delimit Scope build_scope with build.
Notation "'let*' x ':=' m 'in' k" := (bind m (fun x => k))
  (at level 10, x name, m at level 100, k at level 200) : build_scope.
Notation "m ';;' k" := (bind m (fun _ => k))
  (at level 100, k at level 200, right associativity) : build_scope.

(** ** The declarative resource interface of the provisioning library *)

Module Cdktf.

(** The resource classes the program imports from the provider package. *)
Inductive ResourceType : Type :=
| GoogleProvider
| ComputeNetwork
| ComputeSubnetwork
| CloudRunV2Service
| CloudRunV2ServiceIamMember
| ComputeAddress
| ComputeRegionNetworkEndpointGroup
| ComputeRegionBackendService
| ComputeForwardingRule
| ComputeRegionTargetHttpProxy
| ComputeRegionUrlMap
| ComputeServiceAttachment.

(** The module each class is imported from (the [import] lines of the
    source), relative to [@cdktf/provider-google/lib/]. *)
Definition module_of (t : ResourceType) : string :=
  match t with
  | GoogleProvider => "provider"
  | ComputeNetwork => "compute-network"
  | ComputeSubnetwork => "compute-subnetwork"
  | CloudRunV2Service => "cloud-run-v2-service"
  | CloudRunV2ServiceIamMember => "cloud-run-v2-service-iam-member"
  | ComputeAddress => "compute-address"
  | ComputeRegionNetworkEndpointGroup => "compute-region-network-endpoint-group"
  | ComputeRegionBackendService => "compute-region-backend-service"
  | ComputeForwardingRule => "compute-forwarding-rule"
  | ComputeRegionTargetHttpProxy => "compute-region-target-http-proxy"
  | ComputeRegionUrlMap => "compute-region-url-map"
  | ComputeServiceAttachment => "compute-service-attachment"
  end.

Definition ResourceType_eqb (a b : ResourceType) : bool :=
  String.eqb (module_of a) (module_of b).

(** The attributes the program reads from a declared resource: [x.id] and
    [x.name].  Reading one yields a token that the engine resolves, not a
    value known to the program. *)
Inductive Attr : Type :=
| attr_id
| attr_name.

(** The object a [new X(this, cid, config)] expression evaluates to. *)
Record Handle : Type := mkHandle {
  h_type : ResourceType;
  h_cid : string
}.

(** Property values: the literals of the source, back-references, and the
    array and object literals built from them. *)
Inductive Value : Type :=
| VStr (s : string)
| VBool (b : bool)
| VNum (n : Z)
| VRef (target : Handle) (a : Attr)
| VArr (items : list Value)
| VObj (fields : list (string * Value)).

Definition Config : Type := list (string * Value).

Record Resource : Type := mkResource {
  r_type : ResourceType;
  r_id : string;
  r_config : Config
}.

(** A stack is a construct with an id and the constructs declared in it, in
    declaration order. *)
Record TerraformStack : Type := mkStack {
  stack_id : string;
  children : list Resource
}.

(** The root construct: its children are the stacks registered in it. *)
Record App : Type := mkApp {
  app_children : list TerraformStack
}.

Definition id (h : Handle) : Value := VRef h attr_id.
Definition name (h : Handle) : Value := VRef h attr_name.

Definition has_id (cid : string) (rs : list Resource) : bool :=
  existsb (fun r => String.eqb cid (r_id r)) rs.

(** Modelled from the spec: the constructor of a provider resource class,
    which belongs to the provisioning library and not to the repository.  The
    spec gives its interface as a resource type, a named identity and a
    mapping of property names to values or back-references.  The identity is
    taken to identify: a construct whose id is already present in the stack
    is refused. *)
Definition declare (t : ResourceType) (cid : string) (config : Config)
  : St TerraformStack Handle :=
  fun this =>
    if has_id cid (children this)
    then Throw (DuplicateConstruct (stack_id this) cid)
    else Ok (mkHandle t cid,
             mkStack (stack_id this)
                     (children this ++ [mkResource t cid config])).

Definition has_stack (sid : string) (ss : list TerraformStack) : bool :=
  existsb (fun s => String.eqb sid (stack_id s)) ss.

(** Modelled from the spec: a class that extends the library's stack class
    with a constructor [constructor(scope, id) { super(scope, id); body }].
    [super] registers the new stack in [scope] under [id]; the body then
    declares its constructs into the stack, which [scope] holds by
    reference. *)
Definition extends_TerraformStack (body : St TerraformStack unit)
    (scope : App) (sid : string) : Result (TerraformStack * App) :=
  if has_stack sid (app_children scope)
  then Throw (DuplicateConstruct "" sid)
  else
    match body (mkStack sid []) with
    | Ok (_, this) => Ok (this, mkApp (app_children scope ++ [this]))
    | Throw e => Throw e
    end.

(** *** The top-level program: objects are held by reference *)

(** The library calls of the top-level statements, oldest first.  A
    [CallSynth] carries the description it hands to the engine. *)
Inductive Call : Type :=
| CallNewApp (app : nat)
| CallNewStack (app : nat) (sid : string)
| CallSynth (app : nat) (description : list TerraformStack).

Record World : Type := mkWorld {
  heap : list App;
  calls : list Call
}.

Definition empty_world : World := mkWorld [] [].

Fixpoint update_nth {A : Type} (n : nat) (x : A) (l : list A) : list A :=
  match l, n with
  | [], _ => []
  | _ :: t, O => x :: t
  | h :: t, S n' => h :: update_nth n' x t
  end.

(** [new App()]: a fresh root construct. *)
Definition new_App : St World nat :=
  fun w =>
    let ref := length (heap w) in
    Ok (ref, mkWorld (heap w ++ [mkApp []]) (calls w ++ [CallNewApp ref])).

(** [new C(app, sid)] for a stack class [C]: the constructor runs on the
    object [app] refers to, which is updated in place. *)
Definition new_ (C : App -> string -> Result (TerraformStack * App))
    (app : nat) (sid : string) : St World TerraformStack :=
  fun w =>
    match nth_error (heap w) app with
    | None => Throw (NoSuchObject app)
    | Some scope =>
        match C scope sid with
        | Ok (this, scope') =>
            Ok (this, mkWorld (update_nth app scope' (heap w))
                              (calls w ++ [CallNewStack app sid]))
        | Throw e => Throw e
        end
    end.

(** Modelled from the spec: [app.synth()], a library method; the spec says
    the program hands the description of the declared topology to the
    external engine, so the call is recorded with the stacks of the app at
    that moment and changes nothing else. *)
Definition synth (app : nat) : St World unit :=
  fun w =>
    match nth_error (heap w) app with
    | None => Throw (NoSuchObject app)
    | Some a =>
        Ok (tt, mkWorld (heap w) (calls w ++ [CallSynth app (app_children a)]))
    end.

End Cdktf.

Import Cdktf.

Coercion VStr : string >-> Value.
Coercion VBool : bool >-> Value.
Coercion VNum : Z >-> Value.


(** [{ k: v, ... }] of the source is written [[k :-> v; ...]]. *)
Notation "k ':->' v" := (@pair string Value k v) (at level 60).

Local Open Scope build_scope.
Local Open Scope Z_scope.

(** ** [src/main.ts] *)

Module Main.

Definition region : string := "europe-west2".

(** The statements of [StackA]'s constructor after [super(scope, id)]. *)
Definition StackA_body : St TerraformStack unit :=
  declare GoogleProvider "google"
    [ "project" :-> "project-a";
      "region" :-> region ];;
  let* network := declare ComputeNetwork "network-a"
    [ "name" :-> "network-a";
      "autoCreateSubnetworks" :-> false ] in
  let* subnetApp := declare ComputeSubnetwork "app-subnet"
    [ "name" :-> "app-subnet";
      "network" :-> name network;
      "region" :-> region;
      "ipCidrRange" :-> "10.0.0.0/24";
      "purpose" :-> "PRIVATE" ] in
  declare ComputeSubnetwork "proxy-subnet"
    [ "name" :-> "proxy-subnet";
      "network" :-> name network;
      "region" :-> region;
      "ipCidrRange" :-> "10.0.1.0/24";
      "purpose" :-> "REGIONAL_MANAGED_PROXY";
      "role" :-> "ACTIVE" ];;
  let* subnetPSC := declare ComputeSubnetwork "psc-subnet"
    [ "name" :-> "psc-subnet";
      "network" :-> name network;
      "region" :-> region;
      "ipCidrRange" :-> "10.0.2.0/24";
      "purpose" :-> "PRIVATE_SERVICE_CONNECT" ] in
  let* service := declare CloudRunV2Service "service"
    [ "name" :-> "service";
      "location" :-> region;
      "deletionProtection" :-> false;
      "ingress" :-> "INGRESS_TRAFFIC_INTERNAL_ONLY";
      "template" :-> VObj
        [ "containers" :-> VArr
            [ VObj [ "image" :-> "us-docker.pkg.dev/cloudrun/container/hello" ] ] ] ] in
  declare CloudRunV2ServiceIamMember "invoker"
    [ "name" :-> name service;
      "location" :-> region;
      "role" :-> "roles/run.invoker";
      "member" :-> "allUsers" ];;
  let* loadbalancerAddress := declare ComputeAddress "loadbalancer-address"
    [ "name" :-> "loadbalancer-address";
      "region" :-> region;
      "subnetwork" :-> name subnetApp;
      "addressType" :-> "INTERNAL";
      "address" :-> "10.0.0.10";
      "ipVersion" :-> "IPV4" ] in
  let* networkEndpointGroup :=
    declare ComputeRegionNetworkEndpointGroup "network-endpoint-group"
    [ "name" :-> "network-endpoint-group";
      "region" :-> region;
      "networkEndpointType" :-> "SERVERLESS";
      "cloudRun" :-> VObj [ "service" :-> name service ] ] in
  let* backendService :=
    declare ComputeRegionBackendService "backend-service"
    [ "name" :-> "backend-service";
      "loadBalancingScheme" :-> "INTERNAL_MANAGED";
      "region" :-> region;
      "protocol" :-> "HTTPS";
      "backend" :-> VArr [ VObj [ "group" :-> id networkEndpointGroup ] ] ] in
  let* loadbalancer := declare ComputeRegionUrlMap "loadbalancer"
    [ "name" :-> "loadbalancer";
      "region" :-> region;
      "defaultService" :-> id backendService ] in
  let* httpProxy := declare ComputeRegionTargetHttpProxy "http-proxy"
    [ "name" :-> "http-proxy";
      "region" :-> region;
      "urlMap" :-> id loadbalancer ] in
  let* forwardingRule := declare ComputeForwardingRule "forwarding-rule"
    [ "name" :-> "forwarding-rule";
      "region" :-> region;
      "ipProtocol" :-> "TCP";
      "loadBalancingScheme" :-> "INTERNAL_MANAGED";
      "portRange" :-> "80";
      "target" :-> id httpProxy;
      "network" :-> name network;
      "subnetwork" :-> name subnetApp;
      "ipAddress" :-> id loadbalancerAddress;
      "networkTier" :-> "PREMIUM" ] in
  let* serviceAttachment :=
    declare ComputeServiceAttachment "psc-service-attachment"
    [ "name" :-> "psc-service-attachment";
      "region" :-> region;
      "targetService" :-> id forwardingRule;
      "connectionPreference" :-> "ACCEPT_MANUAL";
      "natSubnets" :-> VArr [ id subnetPSC ];
      "enableProxyProtocol" :-> false;
      "consumerAcceptLists" :-> VArr
        [ VObj
            [ "networkUrl" :->
                "https://www.googleapis.com/compute/v1/projects/PROJECT-B/global/networks/default";
              "connectionLimit" :-> 10 ] ] ] in
  let* consumerIP := declare ComputeAddress "consumer-ip"
    [ "name" :-> "consumer-ip";
      "region" :-> region;
      "subnetwork" :-> "default";
      "addressType" :-> "INTERNAL";
      "address" :-> "10.154.0.5";
      "ipVersion" :-> "IPV4";
      "project" :-> "PROJECT-B" ] in
  declare ComputeForwardingRule "forwarding-rule-psc"
    [ "name" :-> "psc-forwarding-rule";
      "region" :-> region;
      "network" :-> "default";
      "subnetwork" :-> "default";
      "target" :-> id serviceAttachment;
      "project" :-> "PROJECT-B";
      "loadBalancingScheme" :-> "";
      "ipAddress" :-> id consumerIP ];;
  ret tt.

Definition StackA : App -> string -> Result (TerraformStack * App) :=
  extends_TerraformStack StackA_body.

(** The statements after the class: [const app = new App();
    new StackA(app, "lab"); app.synth();]. *)
Definition main : St World unit :=
  let* app := new_App in
  new_ StackA app "lab";;
  synth app.

End Main.

(** ** The second version of the stack ([src/unnamed/part_000]) *)

Module Part000.

Definition region : string := "europe-west2".

(** The statements of [StackA]'s constructor after [super(scope, id)]. *)
Definition StackA_body : St TerraformStack unit :=
  declare GoogleProvider "google"
    [ "project" :-> "PROJECT-A";
      "region" :-> region ];;
  let* network := declare ComputeNetwork "network-a"
    [ "name" :-> "network-a";
      "autoCreateSubnetworks" :-> false ] in
  let* subnetApp := declare ComputeSubnetwork "subnet-app"
    [ "name" :-> "subnet-app";
      "network" :-> name network;
      "region" :-> region;
      "ipCidrRange" :-> "10.0.0.0/24";
      "purpose" :-> "PRIVATE" ] in
  declare ComputeSubnetwork "subnet-proxy"
    [ "name" :-> "subnet-proxy";
      "network" :-> name network;
      "region" :-> region;
      "ipCidrRange" :-> "10.0.1.0/24";
      "purpose" :-> "REGIONAL_MANAGED_PROXY";
      "role" :-> "ACTIVE" ];;
  let* subnetPSC := declare ComputeSubnetwork "subnet-psc"
    [ "name" :-> "subnet-psc";
      "network" :-> name network;
      "region" :-> region;
      "ipCidrRange" :-> "10.0.2.0/24";
      "purpose" :-> "PRIVATE_SERVICE_CONNECT" ] in
  let* service := declare CloudRunV2Service "service"
    [ "name" :-> "service";
      "location" :-> region;
      "deletionProtection" :-> false;
      "ingress" :-> "INGRESS_TRAFFIC_INTERNAL_ONLY";
      "template" :-> VObj
        [ "containers" :-> VArr
            [ VObj [ "image" :-> "us-docker.pkg.dev/cloudrun/container/hello" ] ] ] ] in
  declare CloudRunV2ServiceIamMember "invoker"
    [ "name" :-> name service;
      "location" :-> region;
      "role" :-> "roles/run.invoker";
      "member" :-> "allUsers" ];;
  declare ComputeAddress "loadbalancer-address"
    [ "name" :-> "loadbalancer-address";
      "region" :-> region;
      "subnetwork" :-> name subnetApp;
      "addressType" :-> "INTERNAL";
      "address" :-> "10.0.0.10";
      "ipVersion" :-> "IPV4" ];;
  let* networkEndpointGroup :=
    declare ComputeRegionNetworkEndpointGroup "network-endpoint-group"
    [ "name" :-> "network-endpoint-group";
      "region" :-> region;
      "networkEndpointType" :-> "SERVERLESS";
      "cloudRun" :-> VObj [ "service" :-> name service ] ] in
  let* backendService :=
    declare ComputeRegionBackendService "backend-service"
    [ "name" :-> "backend-service";
      "loadBalancingScheme" :-> "INTERNAL_MANAGED";
      "region" :-> region;
      "protocol" :-> "HTTPS";
      "backend" :-> VArr [ VObj [ "group" :-> id networkEndpointGroup ] ] ] in
  let* urlMap := declare ComputeRegionUrlMap "url-map"
    [ "name" :-> "url-map";
      "region" :-> region;
      "defaultService" :-> id backendService ] in
  let* httpProxy := declare ComputeRegionTargetHttpProxy "http-proxy"
    [ "name" :-> "http-proxy";
      "region" :-> region;
      "urlMap" :-> id urlMap ] in
  let* forwardingRule := declare ComputeForwardingRule "forwarding-rule"
    [ "name" :-> "forwarding-rule";
      "region" :-> region;
      "ipProtocol" :-> "TCP";
      "loadBalancingScheme" :-> "INTERNAL_MANAGED";
      "portRange" :-> "80";
      "target" :-> id httpProxy;
      "network" :-> name network;
      "subnetwork" :-> name subnetApp;
      "networkTier" :-> "PREMIUM" ] in
  let* computeService :=
    declare ComputeServiceAttachment "psc-service-attachment"
    [ "name" :-> "psc-service-attachment";
      "region" :-> region;
      "targetService" :-> id forwardingRule;
      "connectionPreference" :-> "ACCEPT_MANUAL";
      "natSubnets" :-> VArr [ id subnetPSC ];
      "enableProxyProtocol" :-> false;
      "consumerAcceptLists" :-> VArr
        [ VObj
            [ "networkUrl" :->
                "https://www.googleapis.com/compute/v1/projects/PROJECT-B/global/networks/default";
              "connectionLimit" :-> 10 ] ] ] in
  let* consumerIP := declare ComputeAddress "consumer-ip"
    [ "name" :-> "consumer-ip";
      "region" :-> region;
      "subnetwork" :-> "default";
      "addressType" :-> "INTERNAL";
      "address" :-> "10.154.0.5";
      "ipVersion" :-> "IPV4";
      "project" :-> "PROJECT-B" ] in
  declare ComputeForwardingRule "forwarding-rule-psc"
    [ "name" :-> "psc-forwarding-rule";
      "region" :-> region;
      "network" :-> "default";
      "subnetwork" :-> "default";
      "target" :-> id computeService;
      "project" :-> "PROJECT-B";
      "loadBalancingScheme" :-> "";
      "ipAddress" :-> id consumerIP ];;
  ret tt.

Definition StackA : App -> string -> Result (TerraformStack * App) :=
  extends_TerraformStack StackA_body.

(** The statements after the class: [const app = new App();
    new StackA(app, "lab"); app.synth();]. *)
Definition main : St World unit :=
  let* app := new_App in
  new_ StackA app "lab";;
  synth app.

End Part000.

(** ** The two versions side by side *)

Inductive Version : Type :=
| main_ts
| part_000.

Definition StackA_body (v : Version) : St TerraformStack unit :=
  match v with
  | main_ts => Main.StackA_body
  | part_000 => Part000.StackA_body
  end.

Definition StackA (v : Version) : App -> string -> Result (TerraformStack * App) :=
  match v with
  | main_ts => Main.StackA
  | part_000 => Part000.StackA
  end.

Definition main (v : Version) : St World unit :=
  match v with
  | main_ts => Main.main
  | part_000 => Part000.main
  end.

(** The constructs the body of [StackA] declares into an empty stack. *)
Definition declared (v : Version) : list Resource :=
  match StackA_body v (mkStack "" []) with
  | Ok (_, this) => children this
  | Throw _ => []
  end.

(** ** Reading a declared resource graph *)

Module Graph.

(** [config.k], the first binding of [k]. *)
Fixpoint lookup (k : string) (c : Config) : option Value :=
  match c with
  | [] => None
  | (k', v) :: rest => if String.eqb k k' then Some v else lookup k rest
  end.

Definition handle_of (r : Resource) : Handle := mkHandle (r_type r) (r_id r).

Definition of_type (t : ResourceType) (rs : list Resource) : list Resource :=
  filter (fun r => ResourceType_eqb t (r_type r)) rs.

(** The one resource of type [t], when there is exactly one. *)
Definition the (t : ResourceType) (rs : list Resource) : option Resource :=
  match of_type t rs with
  | [r] => Some r
  | _ => None
  end.

Definition by_id (cid : string) (rs : list Resource) : option Resource :=
  find (fun r => String.eqb cid (r_id r)) rs.

Definition prop (k : string) (r : Resource) : option Value :=
  lookup k (r_config r).

(** The back-references that occur in a value, at any depth. *)
Fixpoint refs (v : Value) : list (Handle * Attr) :=
  match v with
  | VRef h a => [(h, a)]
  | VArr items => flat_map refs items
  | VObj fields => flat_map (fun kv => refs (snd kv)) fields
  | _ => []
  end.

Definition refs_of (r : Resource) : list (Handle * Attr) :=
  flat_map (fun kv => refs (snd kv)) (r_config r).

Definition Handle_eqb (a b : Handle) : bool :=
  ResourceType_eqb (h_type a) (h_type b) && String.eqb (h_cid a) (h_cid b).

Definition declares (rs : list Resource) (h : Handle) : bool :=
  existsb (fun r => Handle_eqb h (handle_of r)) rs.

(** A graph is well scoped when every construct id is new where it is
    declared and every back-reference names a resource declared before the
    one that holds it. *)
Fixpoint scoped_after (earlier rs : list Resource) : bool :=
  match rs with
  | [] => true
  | r :: rest =>
      negb (has_id (r_id r) earlier)
      && forallb (fun ha => declares earlier (fst ha)) (refs_of r)
      && scoped_after (earlier ++ [r]) rest
  end.

Definition well_scoped (rs : list Resource) : bool := scoped_after [] rs.

(** A class from a peering module of the provider package. *)
Fixpoint contains (needle hay : string) : bool :=
  match hay with
  | EmptyString => String.eqb needle EmptyString
  | String _ rest => String.prefix needle hay || contains needle rest
  end.

Definition is_peering (t : ResourceType) : bool :=
  contains "peering" (module_of t).

(** A value is declarative over the resources [earlier] when it is built
    from literals and from back-references to resources among [earlier]. *)
Inductive declarative (earlier : list Resource) : Value -> Prop :=
| decl_str (s : string) : declarative earlier (VStr s)
| decl_bool (b : bool) : declarative earlier (VBool b)
| decl_num (n : Z) : declarative earlier (VNum n)
| decl_ref (r : Resource) (a : Attr) :
    In r earlier -> declarative earlier (VRef (handle_of r) a)
| decl_arr (items : list Value) :
    Forall (declarative earlier) items -> declarative earlier (VArr items)
| decl_obj (fields : list (string * Value)) :
    Forall (fun kv => declarative earlier (snd kv)) fields ->
    declarative earlier (VObj fields).

Fixpoint declarativeb (earlier : list Resource) (v : Value) : bool :=
  match v with
  | VStr _ | VBool _ | VNum _ => true
  | VRef h _ => declares earlier h
  | VArr items => forallb (declarativeb earlier) items
  | VObj fields => forallb (fun kv => declarativeb earlier (snd kv)) fields
  end.

(** Every property of every resource is declarative over the resources
    declared before it. *)
Fixpoint declarative_after (earlier rs : list Resource) : bool :=
  match rs with
  | [] => true
  | r :: rest =>
      forallb (fun kv => declarativeb earlier (snd kv)) (r_config r)
      && declarative_after (earlier ++ [r]) rest
  end.

End Graph.

(** ** IPv4 CIDR blocks *)

Module Cidr.

Definition digit (c : ascii) : option Z :=
  let n := Z.of_nat (nat_of_ascii c) in
  if (48 <=? n) && (n <=? 57) then Some (n - 48) else None.

Fixpoint parse_dec_from (acc : Z) (s : string) : option Z :=
  match s with
  | EmptyString => Some acc
  | String c rest =>
      match digit c with
      | Some d => parse_dec_from (10 * acc + d) rest
      | None => None
      end
  end.

Definition parse_dec (s : string) : option Z :=
  match s with
  | EmptyString => None
  | _ => parse_dec_from 0 s
  end.

Fixpoint split (sep : ascii) (s : string) : list string :=
  match s with
  | EmptyString => [EmptyString]
  | String c rest =>
      if Ascii.eqb c sep then EmptyString :: split sep rest
      else
        match split sep rest with
        | h :: t => String c h :: t
        | [] => [String c EmptyString]
        end
  end.

Definition parse_ipv4 (s : string) : option Z :=
  match map parse_dec (split "." s) with
  | [Some a; Some b; Some c; Some d] =>
      if (a <=? 255) && (b <=? 255) && (c <=? 255) && (d <=? 255)
      then Some (((a * 256 + b) * 256 + c) * 256 + d)
      else None
  | _ => None
  end.

Record Block : Type := mkBlock {
  address : Z;
  prefix_length : Z
}.

Definition parse (s : string) : option Block :=
  match split "/" s with
  | [ip; len] =>
      match parse_ipv4 ip, parse_dec len with
      | Some a, Some l => if l <=? 32 then Some (mkBlock a l) else None
      | _, _ => None
      end
  | _ => None
  end.

Definition size (b : Block) : Z := 2 ^ (32 - prefix_length b).
Definition first (b : Block) : Z := address b - address b mod size b.
Definition last (b : Block) : Z := first b + size b - 1.

Definition covers (b : Block) (ip : Z) : Prop := first b <= ip <= last b.

Definition disjoint (b1 b2 : Block) : Prop :=
  forall ip, ~ (covers b1 ip /\ covers b2 ip).

(** The block of a subnetwork's [ipCidrRange]. *)
Definition of_resource (r : Resource) : option Block :=
  match Graph.prop "ipCidrRange" r with
  | Some (VStr s) => parse s
  | _ => None
  end.

End Cidr.

Import Graph.

Definition region (v : Version) : string :=
  match v with
  | main_ts => Main.region
  | part_000 => Part000.region
  end.

(** ** What is stated of a resource graph *)

(** The sequence of resource types both versions declare. *)
Definition type_sequence : list ResourceType :=
  [GoogleProvider; ComputeNetwork;
   ComputeSubnetwork; ComputeSubnetwork; ComputeSubnetwork;
   CloudRunV2Service; CloudRunV2ServiceIamMember;
   ComputeAddress; ComputeRegionNetworkEndpointGroup;
   ComputeRegionBackendService; ComputeRegionUrlMap;
   ComputeRegionTargetHttpProxy; ComputeForwardingRule;
   ComputeServiceAttachment; ComputeAddress; ComputeForwardingRule].

(** The sixteen constructs in their order; one network, ["network-a"]; three
    subnetworks, each of that network; the Cloud Run service ["service"]; an
    internal load balancer (a backend service with scheme
    ["INTERNAL_MANAGED"], the url map whose default service it is, the HTTP
    proxy of that url map, a forwarding rule that targets the proxy); a
    service attachment with a consumer-side address and forwarding rule
    declared in ["PROJECT-B"], which is not the provider's project. *)
Definition target_topology (rs : list Resource) : Prop :=
  map r_type rs = type_sequence /\
  (exists net,
     the ComputeNetwork rs = Some net /\ r_id net = "network-a" /\
     length (of_type ComputeSubnetwork rs) = 3%nat /\
     Forall (fun s => prop "network" s = Some (name (handle_of net)))
            (of_type ComputeSubnetwork rs)) /\
  (exists svc,
     the CloudRunV2Service rs = Some svc /\ r_id svc = "service") /\
  (exists backend urlmap proxy rule,
     the ComputeRegionBackendService rs = Some backend /\
     prop "loadBalancingScheme" backend = Some (VStr "INTERNAL_MANAGED") /\
     the ComputeRegionUrlMap rs = Some urlmap /\
     prop "defaultService" urlmap = Some (id (handle_of backend)) /\
     the ComputeRegionTargetHttpProxy rs = Some proxy /\
     prop "urlMap" proxy = Some (id (handle_of urlmap)) /\
     In rule (of_type ComputeForwardingRule rs) /\
     prop "target" rule = Some (id (handle_of proxy))) /\
  (exists provider attachment address rule,
     the GoogleProvider rs = Some provider /\
     the ComputeServiceAttachment rs = Some attachment /\
     In address (of_type ComputeAddress rs) /\
     prop "project" address = Some (VStr "PROJECT-B") /\
     In rule (of_type ComputeForwardingRule rs) /\
     prop "project" rule = Some (VStr "PROJECT-B") /\
     prop "target" rule = Some (id (handle_of attachment)) /\
     prop "project" provider <> Some (VStr "PROJECT-B")).

(** The service attachment targets the producer's forwarding rule, takes the
    ["PRIVATE_SERVICE_CONNECT"] subnetwork as its one NAT subnet and lists
    one accepted consumer, the ["default"] network of ["PROJECT-B"] with
    limit 10; the consumer's forwarding rule is declared in ["PROJECT-B"]
    and targets the attachment; no class of the graph is a peering. *)
Definition private_service_connection (rs : list Resource) : Prop :=
  exists rule psc attachment consumer,
    by_id "forwarding-rule" rs = Some rule /\
    r_type rule = ComputeForwardingRule /\
    prop "project" rule = None /\
    the ComputeServiceAttachment rs = Some attachment /\
    prop "targetService" attachment = Some (id (handle_of rule)) /\
    In psc (of_type ComputeSubnetwork rs) /\
    prop "purpose" psc = Some (VStr "PRIVATE_SERVICE_CONNECT") /\
    prop "natSubnets" attachment = Some (VArr [id (handle_of psc)]) /\
    prop "consumerAcceptLists" attachment =
      Some (VArr
        [VObj
           [ "networkUrl" :->
               "https://www.googleapis.com/compute/v1/projects/PROJECT-B/global/networks/default";
             "connectionLimit" :-> 10 ]]) /\
    by_id "forwarding-rule-psc" rs = Some consumer /\
    r_type consumer = ComputeForwardingRule /\
    prop "project" consumer = Some (VStr "PROJECT-B") /\
    prop "target" consumer = Some (id (handle_of attachment)) /\
    Forall (fun r => is_peering (r_type r) = false) rs.

(** Every back-reference names a resource declared earlier in the graph,
    and the references lead from the forwarding rule through the proxy, the
    url map, the backend service and the endpoint group to the Cloud Run
    service. *)
Definition references_resolve (rs : list Resource) : Prop :=
  (forall pre r post, rs = (pre ++ r :: post)%list ->
     forall h a, In (h, a) (refs_of r) ->
       exists r', In r' pre /\ handle_of r' = h) /\
  (exists rule proxy urlmap backend neg svc,
     by_id "forwarding-rule" rs = Some rule /\
     the ComputeRegionTargetHttpProxy rs = Some proxy /\
     prop "target" rule = Some (id (handle_of proxy)) /\
     the ComputeRegionUrlMap rs = Some urlmap /\
     prop "urlMap" proxy = Some (id (handle_of urlmap)) /\
     the ComputeRegionBackendService rs = Some backend /\
     prop "defaultService" urlmap = Some (id (handle_of backend)) /\
     the ComputeRegionNetworkEndpointGroup rs = Some neg /\
     prop "backend" backend =
       Some (VArr [VObj [ "group" :-> id (handle_of neg) ]]) /\
     the CloudRunV2Service rs = Some svc /\
     prop "cloudRun" neg = Some (VObj [ "service" :-> name (handle_of svc) ])).

(** The subnetwork purposes, the load-balancing scheme of the backend
    service and of the producer's forwarding rule, and the attachment's
    connection preference are the literals of the source. *)
Definition semantics_as_literals (rs : list Resource) : Prop :=
  map (prop "purpose") (of_type ComputeSubnetwork rs) =
    [Some (VStr "PRIVATE"); Some (VStr "REGIONAL_MANAGED_PROXY");
     Some (VStr "PRIVATE_SERVICE_CONNECT")] /\
  (exists backend,
     the ComputeRegionBackendService rs = Some backend /\
     prop "loadBalancingScheme" backend = Some (VStr "INTERNAL_MANAGED")) /\
  (exists rule,
     by_id "forwarding-rule" rs = Some rule /\
     prop "loadBalancingScheme" rule = Some (VStr "INTERNAL_MANAGED")) /\
  (exists attachment,
     the ComputeServiceAttachment rs = Some attachment /\
     prop "connectionPreference" attachment = Some (VStr "ACCEPT_MANUAL")).

(** Construct ids are distinct, and every property value of a resource is
    built from literals and back-references to resources declared before
    it. *)
Definition declarative_interface (rs : list Resource) : Prop :=
  NoDup (map r_id rs) /\
  forall pre r post, rs = (pre ++ r :: post)%list ->
    Forall (fun kv => declarative pre (snd kv)) (r_config r).

(** The Cloud Run service admits internal traffic only, and the IAM member
    declared on that service grants [roles/run.invoker] to [allUsers]. *)
Definition internal_ingress_public_invoker (rs : list Resource) : Prop :=
  exists svc member,
    the CloudRunV2Service rs = Some svc /\
    prop "ingress" svc = Some (VStr "INGRESS_TRAFFIC_INTERNAL_ONLY") /\
    the CloudRunV2ServiceIamMember rs = Some member /\
    prop "name" member = Some (name (handle_of svc)) /\
    prop "role" member = Some (VStr "roles/run.invoker") /\
    prop "member" member = Some (VStr "allUsers").

(** The three subnetworks are of the network ["network-a"], lie in the
    region [reg], which is also the [region] or [location] of every
    construct that has one, and their CIDR blocks are pairwise disjoint. *)
Definition subnetworks_partition (reg : string) (rs : list Resource) : Prop :=
  (exists s1 s2 s3 b1 b2 b3,
     of_type ComputeSubnetwork rs = [s1; s2; s3] /\
     Forall (fun s =>
               prop "network" s =
                 Some (name (mkHandle ComputeNetwork "network-a")) /\
               prop "region" s = Some (VStr reg)) [s1; s2; s3] /\
     map (prop "ipCidrRange") [s1; s2; s3] =
       [Some (VStr "10.0.0.0/24"); Some (VStr "10.0.1.0/24");
        Some (VStr "10.0.2.0/24")] /\
     map Cidr.of_resource [s1; s2; s3] = [Some b1; Some b2; Some b3] /\
     Cidr.disjoint b1 b2 /\ Cidr.disjoint b1 b3 /\ Cidr.disjoint b2 b3) /\
  by_id "network-a" rs <> None /\
  Forall (fun r => forall x,
            prop "region" r = Some x \/ prop "location" r = Some x ->
            x = VStr reg) rs.

(** What distinguishes the two versions: the construct ids, the producer
    forwarding rule's [ipAddress] (set in the first, absent in the second)
    and the provider's project. *)
Definition versions_differ (m p : list Resource) : Prop :=
  map r_id m <> map r_id p /\
  (exists rule,
     by_id "forwarding-rule" m = Some rule /\
     prop "ipAddress" rule =
       Some (id (mkHandle ComputeAddress "loadbalancer-address"))) /\
  (exists rule,
     by_id "forwarding-rule" p = Some rule /\ prop "ipAddress" rule = None) /\
  (exists provider,
     the GoogleProvider m = Some provider /\
     prop "project" provider = Some (VStr "project-a")) /\
  (exists provider,
     the GoogleProvider p = Some provider /\
     prop "project" provider = Some (VStr "PROJECT-A")).

(** ** Further readings of a graph *)

Module Wiring.

(** The resource a handle names. *)
Definition target (rs : list Resource) (h : Handle) : option Resource :=
  find (fun r => Handle_eqb h (handle_of r)) rs.

(** The resource the back-reference in property [k] of [r] names. *)
Definition referenced (rs : list Resource) (k : string) (r : Resource)
  : option Resource :=
  match prop k r with
  | Some (VRef h _) => target rs h
  | _ => None
  end.

(** The IPv4 address of an address resource. *)
Definition ip_of (r : Resource) : option Z :=
  match prop "address" r with
  | Some (VStr s) => Cidr.parse_ipv4 s
  | _ => None
  end.

Definition coversb (b : Cidr.Block) (ip : Z) : bool :=
  (Cidr.first b <=? ip) && (ip <=? Cidr.last b).

(** The URL by which the compute API names a network of a project. *)
Definition network_url (project network : string) : string :=
  ("https://www.googleapis.com/compute/v1/projects/" ++ project
   ++ "/global/networks/" ++ network)%string.

(** The project a construct is declared in: its own [project] when it has
    one, the provider's otherwise. *)
Definition project_of (rs : list Resource) (r : Resource) : option Value :=
  match prop "project" r with
  | Some p => Some p
  | None =>
      match the GoogleProvider rs with
      | Some provider => prop "project" provider
      | None => None
      end
  end.

Definition same_string (v w : option Value) : bool :=
  match v, w with
  | Some (VStr a), Some (VStr b) => String.eqb a b
  | _, _ => false
  end.

(** The back-references of a graph as pairs (holder, resource named). *)
Definition edges (rs : list Resource) : list (Resource * Resource) :=
  flat_map
    (fun r =>
       flat_map
         (fun ha =>
            match target rs (fst ha) with
            | Some r' => [(r, r')]
            | None => []
            end)
         (refs_of r))
    rs.

(** The back-references whose two ends are declared in different
    projects. *)
Definition cross_project_edges (rs : list Resource)
  : list (Resource * Resource) :=
  filter
    (fun e =>
       negb (same_string (project_of rs (fst e)) (project_of rs (snd e))))
    (edges rs).

(** The constructs no other construct refers to. *)
Definition unreferenced (rs : list Resource) : list Resource :=
  filter
    (fun r =>
       negb (existsb
               (fun r' =>
                  existsb (fun ha => Handle_eqb (fst ha) (handle_of r))
                          (refs_of r'))
               rs))
    rs.

(** The [name] a resource is given as a literal. *)
Definition literal_name (r : Resource) : option string :=
  match prop "name" r with
  | Some (VStr s) => Some s
  | _ => None
  end.

Definition literal_names (rs : list Resource) : list string :=
  flat_map
    (fun r => match literal_name r with Some s => [s] | None => [] end) rs.

End Wiring.

(** ** From the first version to the second *)

Module Port.

(** The strings that are spelled differently in the second version: four
    construct ids (which are also the resources' names) and the provider's
    project. *)
Definition port_string (s : string) : string :=
  if String.eqb s "app-subnet" then "subnet-app"
  else if String.eqb s "proxy-subnet" then "subnet-proxy"
  else if String.eqb s "psc-subnet" then "subnet-psc"
  else if String.eqb s "loadbalancer" then "url-map"
  else if String.eqb s "project-a" then "PROJECT-A"
  else s.

Definition port_handle (h : Handle) : Handle :=
  mkHandle (h_type h) (port_string (h_cid h)).

Fixpoint port_value (v : Value) : Value :=
  match v with
  | VStr s => VStr (port_string s)
  | VRef h a => VRef (port_handle h) a
  | VArr items => VArr (map port_value items)
  | VObj fields => VObj (map (fun kv => (fst kv, port_value (snd kv))) fields)
  | _ => v
  end.

(** The one property the second version leaves out. *)
Definition dropped (cid k : string) : bool :=
  String.eqb cid "forwarding-rule" && String.eqb k "ipAddress".

Definition port_resource (r : Resource) : Resource :=
  mkResource (r_type r) (port_string (r_id r))
    (map (fun kv => (fst kv, port_value (snd kv)))
         (filter (fun kv => negb (dropped (r_id r) (fst kv))) (r_config r))).

Definition port (rs : list Resource) : list Resource := map port_resource rs.

End Port.

(** ** What is stated of the wiring *)

Fixpoint distinctb (l : list string) : bool :=
  match l with
  | [] => true
  | x :: rest => negb (existsb (String.eqb x) rest) && distinctb rest
  end.

Definition has_prop (k : string) (r : Resource) : bool :=
  match prop k r with
  | Some _ => true
  | None => false
  end.

(** The reserved load-balancer address lies in the block of the subnetwork
    its resource names, and in the block of no other subnetwork. *)
Definition address_in_its_subnetwork (rs : list Resource) : Prop :=
  exists addr sub block ip,
    by_id "loadbalancer-address" rs = Some addr /\
    Wiring.referenced rs "subnetwork" addr = Some sub /\
    r_type sub = ComputeSubnetwork /\
    Cidr.of_resource sub = Some block /\
    Wiring.ip_of addr = Some ip /\
    Cidr.covers block ip /\
    Forall (fun other =>
              other = sub \/
              exists b, Cidr.of_resource other = Some b /\ ~ Cidr.covers b ip)
           (of_type ComputeSubnetwork rs).

(** A forwarding rule that is given an address resource is declared with
    that address's subnetwork, project and region; at least one rule is
    given an address; and the subnetwork of the producer's rule is a
    subnetwork of the rule's network. *)
Definition rules_agree_with_addresses (rs : list Resource) : Prop :=
  (exists rule addr,
     In rule (of_type ComputeForwardingRule rs) /\
     Wiring.referenced rs "ipAddress" rule = Some addr) /\
  Forall (fun rule =>
            forall addr,
              Wiring.referenced rs "ipAddress" rule = Some addr ->
              r_type addr = ComputeAddress /\
              prop "subnetwork" rule = prop "subnetwork" addr /\
              prop "project" rule = prop "project" addr /\
              prop "region" rule = prop "region" addr)
         (of_type ComputeForwardingRule rs) /\
  (exists rule sub net,
     by_id "forwarding-rule" rs = Some rule /\
     Wiring.referenced rs "subnetwork" rule = Some sub /\
     Wiring.referenced rs "network" rule = Some net /\
     Wiring.referenced rs "network" sub = Some net).

(** The one network the service attachment accepts is the network, in the
    project, that the consumer's forwarding rule is declared with. *)
Definition accept_list_admits_consumer (rs : list Resource) : Prop :=
  exists attachment consumer project network,
    the ComputeServiceAttachment rs = Some attachment /\
    by_id "forwarding-rule-psc" rs = Some consumer /\
    Wiring.referenced rs "target" consumer = Some attachment /\
    prop "project" consumer = Some (VStr project) /\
    prop "network" consumer = Some (VStr network) /\
    prop "consumerAcceptLists" attachment =
      Some (VArr
        [VObj [ "networkUrl" :-> Wiring.network_url project network;
                "connectionLimit" :-> 10 ]]).

(** Besides the provider only the consumer's address and forwarding rule
    carry a [project], and the one back-reference between constructs of
    different projects is the consumer rule's target, the service
    attachment. *)
Definition one_cross_project_reference (rs : list Resource) : Prop :=
  exists consumer attachment,
    by_id "forwarding-rule-psc" rs = Some consumer /\
    the ComputeServiceAttachment rs = Some attachment /\
    Wiring.cross_project_edges rs = [(consumer, attachment)] /\
    map r_id (filter (has_prop "project") rs) =
      ["google"; "consumer-ip"; "forwarding-rule-psc"].

(** Literal names are pairwise distinct; a literal name is the construct's
    id except for the consumer's forwarding rule; the provider and the IAM
    member have no literal name. *)
Definition names_identify (rs : list Resource) : Prop :=
  NoDup (Wiring.literal_names rs) /\
  Forall (fun r =>
            forall s, Wiring.literal_name r = Some s ->
              s = r_id r \/
              (r_id r = "forwarding-rule-psc" /\ s = "psc-forwarding-rule"))
         rs /\
  map r_id (filter (fun r => negb (has_prop "name" r)) rs) = ["google"] /\
  (exists member svc,
     the CloudRunV2ServiceIamMember rs = Some member /\
     Wiring.literal_name member = None /\
     Wiring.referenced rs "name" member = Some svc /\
     Wiring.literal_name svc = Some "service").

(** ** Induction on values *)

Section ValueInduction.

Variable P : Value -> Prop.
Hypothesis Hstr : forall s, P (VStr s).
Hypothesis Hbool : forall b, P (VBool b).
Hypothesis Hnum : forall n, P (VNum n).
Hypothesis Href : forall h a, P (VRef h a).
Hypothesis Harr : forall items, Forall P items -> P (VArr items).
Hypothesis Hobj :
  forall fields, Forall (fun kv => P (snd kv)) fields -> P (VObj fields).

(** Induction on values that reaches into array items and object fields. *)
Fixpoint Value_deep_ind (v : Value) : P v :=
  match v with
  | VStr s => Hstr s
  | VBool b => Hbool b
  | VNum n => Hnum n
  | VRef h a => Href h a
  | VArr items =>
      Harr items
        ((fix each (l : list Value) : Forall P l :=
            match l with
            | [] => Forall_nil P
            | x :: rest => Forall_cons x (Value_deep_ind x) (each rest)
            end) items)
  | VObj fields =>
      Hobj fields
        ((fix each (l : list (string * Value))
            : Forall (fun kv => P (snd kv)) l :=
            match l with
            | [] => Forall_nil _
            | (k, x) :: rest =>
                Forall_cons (P := fun kv => P (snd kv)) (k, x)
                            (Value_deep_ind x) (each rest)
            end) fields)
  end.

End ValueInduction.

(** ** The library interface *)

Lemma ResourceType_eqb_eq (a b : ResourceType) :
  ResourceType_eqb a b = true <-> a = b.
Proof.
  split.
  - destruct a, b; intros H; try reflexivity; discriminate H.
  - intros ->. destruct b; reflexivity.
Qed.

Lemma Handle_eqb_eq (a b : Handle) : Handle_eqb a b = true <-> a = b.
Proof.
  unfold Handle_eqb. rewrite andb_true_iff, ResourceType_eqb_eq, String.eqb_eq.
  destruct a, b; simpl. split.
  - intros [-> ->]. reflexivity.
  - intros H. inversion H. auto.
Qed.

Lemma has_id_In (cid : string) (rs : list Resource) :
  has_id cid rs = true <-> In cid (map r_id rs).
Proof.
  unfold has_id. rewrite existsb_exists, in_map_iff. split.
  - intros [r [Hr He]]. apply String.eqb_eq in He. exists r. auto.
  - intros [r [He Hr]]. exists r. split; [assumption|]. now apply String.eqb_eq.
Qed.

Lemma declares_In (rs : list Resource) (h : Handle) :
  declares rs h = true <-> exists r, In r rs /\ handle_of r = h.
Proof.
  unfold declares. rewrite existsb_exists.
  split; intros [r [Hr He]]; exists r; split; try assumption.
  - symmetry. now apply Handle_eqb_eq.
  - apply Handle_eqb_eq. now symmetry.
Qed.

(** A constructor call with a new id returns the handle and appends the
    resource with the configuration it was given. *)
Lemma declare_fresh t cid config this :
  has_id cid (children this) = false ->
  declare t cid config this =
    Ok (mkHandle t cid,
        mkStack (stack_id this) (children this ++ [mkResource t cid config])).
Proof. intros H. unfold declare. now rewrite H. Qed.

Lemma declare_duplicate t cid config this :
  has_id cid (children this) = true ->
  declare t cid config this = Throw (DuplicateConstruct (stack_id this) cid).
Proof. intros H. unfold declare. now rewrite H. Qed.

(** A successful constructor call keeps the construct ids of a stack
    distinct. *)
Lemma declare_NoDup t cid config this h this' :
  NoDup (map r_id (children this)) ->
  declare t cid config this = Ok (h, this') ->
  NoDup (map r_id (children this')).
Proof.
  intros Hnd. unfold declare.
  destruct (has_id cid (children this)) eqn:Hid; [discriminate|].
  intros H. inversion H; subst; clear H. simpl.
  rewrite map_app. simpl.
  apply NoDup_app; [assumption | repeat constructor; intros [] | ].
  simpl. intros x Hx [<- | []].
  apply has_id_In in Hx. congruence.
Qed.

(** ** Soundness of the graph checks *)

Lemma declarativeb_sound (earlier : list Resource) (v : Value) :
  declarativeb earlier v = true -> declarative earlier v.
Proof.
  induction v using Value_deep_ind; simpl; intros Hb.
  - constructor.
  - constructor.
  - constructor.
  - apply declares_In in Hb. destruct Hb as [r [Hr <-]]. now constructor.
  - constructor. rewrite forallb_forall in Hb. rewrite Forall_forall in *.
    intros x Hx. apply H; auto.
  - constructor. rewrite forallb_forall in Hb. rewrite Forall_forall in *.
    intros kv Hkv. apply H; auto.
Qed.

(** The back-references of a declarative value name declared resources. *)
Lemma declarative_refs (earlier : list Resource) (v : Value) :
  declarative earlier v ->
  forall h a, In (h, a) (refs v) -> exists r, In r earlier /\ handle_of r = h.
Proof.
  induction v using Value_deep_ind; intros Hd h' a' Hin;
    inversion Hd; subst; simpl in Hin; try contradiction.
  - destruct Hin as [Heq | []]. inversion Heq; subst. eauto.
  - apply in_flat_map in Hin. destruct Hin as [x [Hx Hr]].
    rewrite Forall_forall in *. eauto.
  - apply in_flat_map in Hin. destruct Hin as [kv [Hkv Hr]].
    rewrite Forall_forall in *. eauto.
Qed.

Lemma scoped_after_sound (rs : list Resource) :
  forall earlier,
    scoped_after earlier rs = true ->
    NoDup (map r_id earlier) ->
    NoDup (map r_id (earlier ++ rs)%list) /\
    forall pre r post, rs = (pre ++ r :: post)%list ->
      forall h a, In (h, a) (refs_of r) ->
        exists r', In r' (earlier ++ pre)%list /\ handle_of r' = h.
Proof.
  induction rs as [|x rest IH]; intros earlier Hs Hnd.
  - rewrite app_nil_r. split; [assumption|].
    intros [|? ?] ? ? Heq; discriminate Heq.
  - simpl in Hs. apply andb_true_iff in Hs. destruct Hs as [Hs Hrest].
    apply andb_true_iff in Hs. destruct Hs as [Hnew Hrefs].
    apply negb_true_iff in Hnew.
    assert (Hnd' : NoDup (map r_id (earlier ++ [x])%list)).
    { rewrite map_app. simpl.
      apply NoDup_app; [assumption | repeat constructor; intros [] | ].
      simpl. intros y Hy [<- | []].
      apply has_id_In in Hy. congruence. }
    destruct (IH _ Hrest Hnd') as [Hall Hback].
    rewrite <- app_assoc in Hall. simpl in Hall. split; [exact Hall|].
    intros [|p pre] r post Heq h a Hin; inversion Heq; subst; clear Heq.
    + rewrite app_nil_r.
      rewrite forallb_forall in Hrefs. specialize (Hrefs _ Hin). simpl in Hrefs.
      now apply declares_In.
    + destruct (Hback pre r post eq_refl h a Hin) as [r' [Hr' He]].
      exists r'. split; [|exact He].
      rewrite <- app_assoc in Hr'. exact Hr'.
Qed.

(** In a well-scoped graph construct ids are distinct and every
    back-reference names a resource declared earlier in the same graph. *)
Lemma well_scoped_sound (rs : list Resource) :
  well_scoped rs = true ->
  NoDup (map r_id rs) /\
  forall pre r post, rs = (pre ++ r :: post)%list ->
    forall h a, In (h, a) (refs_of r) ->
      exists r', In r' pre /\ handle_of r' = h.
Proof.
  intros H. apply (scoped_after_sound rs []) in H; [exact H | constructor].
Qed.

Lemma declarative_after_sound (rs : list Resource) :
  forall earlier,
    declarative_after earlier rs = true ->
    forall pre r post, rs = (pre ++ r :: post)%list ->
      Forall (fun kv => declarative (earlier ++ pre)%list (snd kv)) (r_config r).
Proof.
  induction rs as [|x rest IH]; intros earlier Hd pre r post Heq.
  - destruct pre; discriminate Heq.
  - simpl in Hd. apply andb_true_iff in Hd. destruct Hd as [Hx Hrest].
    destruct pre as [|p pre]; inversion Heq; subst; clear Heq.
    + rewrite app_nil_r. rewrite forallb_forall in Hx.
      apply Forall_forall. intros kv Hkv. apply declarativeb_sound. auto.
    + specialize (IH _ Hrest pre r post eq_refl).
      rewrite <- app_assoc in IH. exact IH.
Qed.

(** ** Construction of [StackA] *)

(** The body never throws: run in a new stack of any id, it declares
    [declared v]. *)
Lemma StackA_body_runs (v : Version) (sid : string) :
  StackA_body v (mkStack sid []) = Ok (tt, mkStack sid (declared v)).
Proof. destruct v; vm_compute; reflexivity. Qed.

(** Constructing [StackA] in a scope that has no child named [sid] registers
    a stack holding [declared v]. *)
Lemma StackA_constructs (v : Version) (scope : App) (sid : string) :
  has_stack sid (app_children scope) = false ->
  StackA v scope sid =
    Ok (mkStack sid (declared v),
        mkApp (app_children scope ++ [mkStack sid (declared v)])).
Proof.
  intros Hfresh.
  assert (H : StackA v scope sid = extends_TerraformStack (StackA_body v) scope sid)
    by (destruct v; reflexivity).
  rewrite H. unfold extends_TerraformStack.
  rewrite Hfresh, StackA_body_runs. reflexivity.
Qed.

(** In a scope that already has a child named [sid] the constructor throws
    before anything is declared. *)
Lemma StackA_duplicate (v : Version) (scope : App) (sid : string) :
  has_stack sid (app_children scope) = true ->
  StackA v scope sid = Throw (DuplicateConstruct "" sid).
Proof.
  intros Hdup. destruct v; unfold StackA, Main.StackA, Part000.StackA,
    extends_TerraformStack; now rewrite Hdup.
Qed.

Lemma declared_well_scoped (v : Version) : well_scoped (declared v) = true.
Proof. destruct v; vm_compute; reflexivity. Qed.

Lemma declared_declarative (v : Version) :
  declarative_after [] (declared v) = true.
Proof. destruct v; vm_compute; reflexivity. Qed.

Lemma the_In (t : ResourceType) (rs : list Resource) (r : Resource) :
  the t rs = Some r -> In r rs /\ r_type r = t.
Proof.
  unfold the. destruct (of_type t rs) as [|x [|y l]] eqn:E; try discriminate.
  intros H. inversion H; subst; clear H.
  assert (Hin : In r (of_type t rs)) by (rewrite E; now left).
  unfold of_type in Hin. apply filter_In in Hin. destruct Hin as [Hin Ht].
  apply ResourceType_eqb_eq in Ht. auto.
Qed.


(** ** The target topology *)

Ltac solve_the := vm_compute; reflexivity.

(** C1.  Constructing [StackA] (either version, in any scope where its id is
    new) declares the target topology: a network ["network-a"], three
    subnetworks of that network, the Cloud Run service ["service"], an
    internal load balancer (backend service with scheme
    ["INTERNAL_MANAGED"], url map, HTTP proxy, forwarding rule) and a
    service attachment with consumer-side resources declared in another
    project. *)
Theorem StackA_declares_target_topology :
  forall (v : Version) (scope : App) (sid : string),
    has_stack sid (app_children scope) = false ->
    exists this scope',
      StackA v scope sid = Ok (this, scope') /\
      target_topology (children this).
Proof.
  intros v scope sid Hfresh.
  do 2 eexists. split; [apply StackA_constructs; exact Hfresh|].
  cbn [children]. unfold target_topology.
  destruct v;
    (split; [reflexivity|]; split; [|split; [|split]];
     [ eexists; split; [solve_the|];
       split; [reflexivity|]; split; [reflexivity|];
       vm_compute; repeat constructor
     | eexists; split; [solve_the|reflexivity]
     | do 4 eexists;
       split; [solve_the|]; split; [reflexivity|];
       split; [solve_the|]; split; [reflexivity|];
       split; [solve_the|]; split; [reflexivity|];
       split; [vm_compute; left; reflexivity|reflexivity]
     | do 4 eexists;
       split; [solve_the|];
       split; [solve_the|];
       split; [vm_compute; right; left; reflexivity|]; split; [reflexivity|];
       split; [vm_compute; right; left; reflexivity|]; split; [reflexivity|];
       split; [reflexivity|]; vm_compute; discriminate ]).
Qed.

Lemma StackA_declares_target_topology_witness :
  has_stack "lab" (app_children (mkApp [])) = false /\
  exists this scope',
    StackA main_ts (mkApp []) "lab" = Ok (this, scope') /\
    target_topology (children this).
Proof.
  split; [reflexivity|].
  apply StackA_declares_target_topology. reflexivity.
Defined.

(** C2.  The private-service connection: the service attachment targets the
    producer's forwarding rule, uses the ["PRIVATE_SERVICE_CONNECT"]
    subnetwork as its NAT subnet and accepts the ["default"] network of
    ["PROJECT-B"] with connection limit 10; the consumer's forwarding rule
    is declared with project ["PROJECT-B"] and targets the attachment's id;
    the stack declares no peering resource. *)
Theorem StackA_private_service_connection :
  forall (v : Version) (scope : App) (sid : string),
    has_stack sid (app_children scope) = false ->
    exists this scope',
      StackA v scope sid = Ok (this, scope') /\
      private_service_connection (children this).
Proof.
  intros v scope sid Hfresh.
  do 2 eexists. split; [apply StackA_constructs; exact Hfresh|].
  cbn [children]. unfold private_service_connection.
  destruct v;
    (do 4 eexists;
     split; [solve_the|]; split; [reflexivity|]; split; [reflexivity|];
     split; [solve_the|]; split; [reflexivity|];
     split; [vm_compute; right; right; left; reflexivity|];
     split; [reflexivity|]; split; [reflexivity|]; split; [reflexivity|];
     split; [solve_the|]; split; [reflexivity|]; split; [reflexivity|];
     split; [reflexivity|];
     vm_compute; repeat constructor).
Qed.

Lemma StackA_private_service_connection_witness :
  has_stack "lab" (app_children (mkApp [])) = false /\
  exists this scope',
    StackA part_000 (mkApp []) "lab" = Ok (this, scope') /\
    private_service_connection (children this).
Proof.
  split; [reflexivity|].
  apply StackA_private_service_connection. reflexivity.
Defined.

(** ** References *)

(** C3.  Every back-reference in the declared graph names a resource
    declared earlier in the same stack, and the chain holds link by link:
    the forwarding rule's target is the HTTP proxy's id, the proxy's url map
    is the url map's id, the url map's default service is the backend
    service's id, the backend's group is the endpoint group's id, and the
    endpoint group names the Cloud Run service. *)
Theorem StackA_references_resolve :
  forall (v : Version) (scope : App) (sid : string),
    has_stack sid (app_children scope) = false ->
    exists this scope',
      StackA v scope sid = Ok (this, scope') /\
      references_resolve (children this).
Proof.
  intros v scope sid Hfresh.
  do 2 eexists. split; [apply StackA_constructs; exact Hfresh|].
  cbn [children]. split.
  - apply well_scoped_sound, declared_well_scoped.
  - destruct v;
      (do 6 eexists;
       split; [solve_the|]; split; [solve_the|]; split; [reflexivity|];
       split; [solve_the|]; split; [reflexivity|];
       split; [solve_the|]; split; [reflexivity|];
       split; [solve_the|]; split; [reflexivity|];
       split; [solve_the|reflexivity]).
Qed.

Lemma StackA_references_resolve_witness :
  has_stack "lab" (app_children (mkApp [])) = false /\
  exists this scope',
    StackA main_ts (mkApp []) "lab" = Ok (this, scope') /\
    references_resolve (children this).
Proof.
  split; [reflexivity|].
  apply StackA_references_resolve. reflexivity.
Defined.

(** ** Configuration values *)

(** C4.  The values that carry network semantics reach the declared
    resources as the literals of the source: the subnetwork purposes
    ["PRIVATE"], ["REGIONAL_MANAGED_PROXY"], ["PRIVATE_SERVICE_CONNECT"],
    the scheme ["INTERNAL_MANAGED"] of the backend service and of the
    producer's forwarding rule, and the connection preference
    ["ACCEPT_MANUAL"].  The constructor stores whatever configuration it is
    given, and whether it throws does not depend on the configuration. *)
Theorem StackA_passes_values_through :
  forall (v : Version) (scope : App) (sid : string),
    has_stack sid (app_children scope) = false ->
    (exists this scope',
       StackA v scope sid = Ok (this, scope') /\
       semantics_as_literals (children this)) /\
    (forall t cid config this h this',
       declare t cid config this = Ok (h, this') ->
       children this' = (children this ++ [mkResource t cid config])%list /\
       forall config', exists this'',
         declare t cid config' this = Ok (h, this'')).
Proof.
  intros v scope sid Hfresh. split.
  - do 2 eexists. split; [apply StackA_constructs; exact Hfresh|].
    cbn [children]. unfold semantics_as_literals.
    destruct v;
      (split; [reflexivity|]; split; [|split];
       eexists; (split; [solve_the|reflexivity])).
  - intros t cid config this h this'. unfold declare.
    destruct (has_id cid (children this)); [discriminate|].
    intros H. inversion H; subst; clear H.
    split; [reflexivity|]. intros config'. eexists. reflexivity.
Qed.

Lemma StackA_passes_values_through_witness :
  has_stack "lab" (app_children (mkApp [])) = false /\
  (exists this scope',
     StackA main_ts (mkApp []) "lab" = Ok (this, scope') /\
     semantics_as_literals (children this)) /\
  (forall t cid config this h this',
     declare t cid config this = Ok (h, this') ->
     children this' = (children this ++ [mkResource t cid config])%list /\
     forall config', exists this'',
       declare t cid config' this = Ok (h, this'')).
Proof.
  split; [reflexivity|].
  apply (StackA_passes_values_through main_ts (mkApp []) "lab"). reflexivity.
Defined.

(** ** Construction does not depend on its inputs *)

(** C5.  Construction does not depend on the scope or the id: any two runs
    that construct the stack declare the same resources, with the same
    property values, in the same order.  A run constructs the stack whenever
    the id is new in the scope, and it then declares what the body declares
    into an empty stack; otherwise [super] throws before the body runs. *)
Theorem StackA_input_independent :
  forall (v : Version) (scope1 scope2 : App) (sid1 sid2 : string),
    (forall this1 scope1' this2 scope2',
       StackA v scope1 sid1 = Ok (this1, scope1') ->
       StackA v scope2 sid2 = Ok (this2, scope2') ->
       children this1 = children this2) /\
    (has_stack sid1 (app_children scope1) = false ->
     exists this1 scope1',
       StackA v scope1 sid1 = Ok (this1, scope1') /\
       children this1 = declared v) /\
    (has_stack sid1 (app_children scope1) = true ->
     StackA v scope1 sid1 = Throw (DuplicateConstruct "" sid1)).
Proof.
  intros v scope1 scope2 sid1 sid2. split; [|split].
  - intros this1 scope1' this2 scope2' H1 H2.
    destruct (has_stack sid1 (app_children scope1)) eqn:F1;
      [rewrite StackA_duplicate in H1 by exact F1; discriminate H1|].
    destruct (has_stack sid2 (app_children scope2)) eqn:F2;
      [rewrite StackA_duplicate in H2 by exact F2; discriminate H2|].
    rewrite StackA_constructs in H1 by exact F1.
    rewrite StackA_constructs in H2 by exact F2.
    inversion H1; inversion H2; reflexivity.
  - intros F1. do 2 eexists.
    split; [apply StackA_constructs; exact F1 | reflexivity].
  - apply StackA_duplicate.
Qed.

Lemma StackA_input_independent_witness :
  exists this1 scope1' this2 scope2',
    StackA main_ts (mkApp []) "lab" = Ok (this1, scope1') /\
    StackA main_ts (mkApp [mkStack "lab" []]) "other" = Ok (this2, scope2') /\
    children this1 = children this2.
Proof.
  pose proof (StackA_constructs main_ts (mkApp []) "lab" eq_refl) as H1.
  pose proof (StackA_constructs main_ts (mkApp [mkStack "lab" []]) "other"
                eq_refl) as H2.
  do 4 eexists. split; [exact H1|]. split; [exact H2|].
  exact (proj1 (StackA_input_independent main_ts (mkApp [])
                  (mkApp [mkStack "lab" []]) "lab" "other")
               _ _ _ _ H1 H2).
Defined.

(** ** The program *)

(** C6.  The program makes three library calls: it creates one app,
    constructs [StackA] in it under the id ["lab"], and calls [synth] once,
    last.  [synth] is handed the app with that one stack; nothing else is
    called. *)
Theorem main_hands_off_description :
  forall v : Version,
    exists this,
      main v empty_world =
        Ok (tt, mkWorld [mkApp [this]]
                        [CallNewApp 0; CallNewStack 0 "lab";
                         CallSynth 0 [this]]) /\
      StackA v (mkApp []) "lab" = Ok (this, mkApp [this]) /\
      stack_id this = "lab".
Proof.
  intros v. exists (mkStack "lab" (declared v)).
  split; [|split].
  - destruct v; vm_compute; reflexivity.
  - rewrite StackA_constructs; reflexivity.
  - reflexivity.
Qed.

(** ** The declarative interface *)

(** C7.  Every declaration of [StackA] is a resource type, a construct id
    that no other declaration of the stack has, and a map from property
    names to values built from literals and from back-references (to the
    [id] or the [name]) of resources declared earlier in the stack. *)
Theorem StackA_declarative_interface :
  forall (v : Version) (scope : App) (sid : string),
    has_stack sid (app_children scope) = false ->
    exists this scope',
      StackA v scope sid = Ok (this, scope') /\
      declarative_interface (children this).
Proof.
  intros v scope sid Hfresh.
  do 2 eexists. split; [apply StackA_constructs; exact Hfresh|].
  cbn [children]. split.
  - apply well_scoped_sound, declared_well_scoped.
  - intros pre r post Heq.
    apply (declarative_after_sound (declared v) [] (declared_declarative v)
             pre r post Heq).
Qed.

Lemma StackA_declarative_interface_witness :
  has_stack "lab" (app_children (mkApp [])) = false /\
  exists this scope',
    StackA main_ts (mkApp []) "lab" = Ok (this, scope') /\
    declarative_interface (children this).
Proof.
  split; [reflexivity|].
  apply StackA_declarative_interface. reflexivity.
Defined.

(** ** Ingress and invoker *)

(** C8.  The Cloud Run service is declared with ingress
    ["INGRESS_TRAFFIC_INTERNAL_ONLY"], and the stack grants
    [roles/run.invoker] on that service to [allUsers]. *)
Theorem StackA_internal_ingress_public_invoker :
  forall (v : Version) (scope : App) (sid : string),
    has_stack sid (app_children scope) = false ->
    exists this scope',
      StackA v scope sid = Ok (this, scope') /\
      internal_ingress_public_invoker (children this).
Proof.
  intros v scope sid Hfresh.
  do 2 eexists. split; [apply StackA_constructs; exact Hfresh|].
  cbn [children]. unfold internal_ingress_public_invoker.
  destruct v;
    (do 2 eexists;
     split; [solve_the|]; split; [reflexivity|];
     split; [solve_the|]; repeat split; reflexivity).
Qed.

Lemma StackA_internal_ingress_public_invoker_witness :
  has_stack "lab" (app_children (mkApp [])) = false /\
  exists this scope',
    StackA part_000 (mkApp []) "lab" = Ok (this, scope') /\
    internal_ingress_public_invoker (children this).
Proof.
  split; [reflexivity|].
  apply StackA_internal_ingress_public_invoker. reflexivity.
Defined.

(** ** Subnetworks *)

(** A block that ends before another begins shares no address with it. *)
Lemma Cidr_disjoint_before (b1 b2 : Cidr.Block) :
  Cidr.last b1 < Cidr.first b2 -> Cidr.disjoint b1 b2.
Proof.
  unfold Cidr.disjoint, Cidr.covers. intros Hlt ip [[_ H1] [H2 _]]. lia.
Qed.

(** A parsed block covers its own address. *)
Lemma Cidr_covers_address (b : Cidr.Block) :
  Cidr.prefix_length b <= 32 -> Cidr.covers b (Cidr.address b).
Proof.
  intros Hlen. unfold Cidr.covers, Cidr.last, Cidr.first.
  assert (Hpos : 0 < Cidr.size b)
    by (unfold Cidr.size; apply Z.pow_pos_nonneg; lia).
  pose proof (Z.mod_pos_bound (Cidr.address b) (Cidr.size b) Hpos). lia.
Qed.

Ltac region_of_each :=
  repeat (apply Forall_cons;
          [ let x := fresh "x" in let H := fresh "H" in
            intros x [H | H]; vm_compute in H;
            first [discriminate H | inversion H; reflexivity] | ]);
  apply Forall_nil.

(** C9.  The three subnetworks reference the network ["network-a"], are
    declared in ["europe-west2"] (the region constant, which every construct
    with a region or location carries), and have the pairwise disjoint
    ranges ["10.0.0.0/24"], ["10.0.1.0/24"], ["10.0.2.0/24"]. *)
Theorem StackA_subnetworks_partition :
  forall (v : Version) (scope : App) (sid : string),
    has_stack sid (app_children scope) = false ->
    exists this scope',
      StackA v scope sid = Ok (this, scope') /\
      region v = "europe-west2" /\
      subnetworks_partition (region v) (children this).
Proof.
  intros v scope sid Hfresh.
  do 2 eexists. split; [apply StackA_constructs; exact Hfresh|].
  cbn [children]. split; [destruct v; reflexivity|].
  unfold subnetworks_partition.
  destruct v;
    (split; [|split];
     [ do 6 eexists;
       split; [solve_the|];
       split; [repeat constructor|];
       split; [reflexivity|];
       split; [solve_the|];
       repeat split; apply Cidr_disjoint_before; reflexivity
     | vm_compute; discriminate
     | match goal with
       | |- Forall _ (declared ?w) =>
           let rs := eval vm_compute in (declared w) in
           change (declared w) with rs
       end;
       region_of_each ]).
Qed.

Lemma StackA_subnetworks_partition_witness :
  has_stack "lab" (app_children (mkApp [])) = false /\
  exists this scope',
    StackA main_ts (mkApp []) "lab" = Ok (this, scope') /\
    region main_ts = "europe-west2" /\
    subnetworks_partition (region main_ts) (children this).
Proof.
  split; [reflexivity|].
  apply StackA_subnetworks_partition. reflexivity.
Defined.

(** ** The two versions *)

(** C10.  Both versions declare the same sequence of resource types
    (provider, network, three subnetworks, Cloud Run service, IAM member,
    address, endpoint group, backend service, url map, HTTP proxy,
    forwarding rule, service attachment, consumer address, consumer
    forwarding rule); their construct ids differ, the producer forwarding
    rule has an [ipAddress] only in [src/main.ts], and the provider project
    is ["project-a"] there and ["PROJECT-A"] in the other version. *)
Theorem versions_declare_same_types :
  forall (scope : App) (sid : string),
    has_stack sid (app_children scope) = false ->
    exists m scope_m p scope_p,
      Main.StackA scope sid = Ok (m, scope_m) /\
      Part000.StackA scope sid = Ok (p, scope_p) /\
      map r_type (children m) = type_sequence /\
      map r_type (children p) = type_sequence /\
      versions_differ (children m) (children p).
Proof.
  intros scope sid Hfresh.
  do 4 eexists.
  split; [apply (StackA_constructs main_ts); exact Hfresh|].
  split; [apply (StackA_constructs part_000); exact Hfresh|].
  cbn [children].
  split; [reflexivity|]. split; [reflexivity|].
  unfold versions_differ. split.
  - intros H. vm_compute in H. discriminate H.
  - repeat split; eexists; (split; [solve_the|reflexivity]).
Qed.

Lemma versions_declare_same_types_witness :
  has_stack "lab" (app_children (mkApp [])) = false /\
  exists m scope_m p scope_p,
    Main.StackA (mkApp []) "lab" = Ok (m, scope_m) /\
    Part000.StackA (mkApp []) "lab" = Ok (p, scope_p) /\
    map r_type (children m) = type_sequence /\
    map r_type (children p) = type_sequence /\
    versions_differ (children m) (children p).
Proof.
  split; [reflexivity|].
  apply versions_declare_same_types. reflexivity.
Defined.

(** ** Checks of the definitions on small inputs *)

Example contains_finds_peering :
  contains "peering" "compute-network-peering" = true /\
  Forall (fun t => is_peering t = false)
         [ComputeNetwork; ComputeSubnetwork; ComputeServiceAttachment].
Proof. split; [reflexivity | repeat constructor]. Qed.

Example parse_block :
  Cidr.parse "10.0.1.0/24" = Some (Cidr.mkBlock 167772416 24) /\
  Cidr.first (Cidr.mkBlock 167772416 24) = 167772416 /\
  Cidr.last (Cidr.mkBlock 167772416 24) = 167772671 /\
  Cidr.parse "10.0.1.0" = None /\
  Cidr.parse "10.0.256.0/24" = None.
Proof. repeat split; reflexivity. Qed.

Example second_declaration_of_an_id_throws :
  (declare ComputeNetwork "n" [];; declare ComputeSubnetwork "n" [];; ret tt)
    (mkStack "s" [])
  = Throw (DuplicateConstruct "s" "n").
Proof. reflexivity. Qed.

Example dangling_reference_is_not_well_scoped :
  well_scoped
    [mkResource ComputeSubnetwork "s"
       [ "network" :-> name (mkHandle ComputeNetwork "n") ];
     mkResource ComputeNetwork "n" []] = false.
Proof. reflexivity. Qed.

(** ** The wiring of the graph *)

Lemma coversb_spec (b : Cidr.Block) (ip : Z) :
  Wiring.coversb b ip = true <-> Cidr.covers b ip.
Proof.
  unfold Wiring.coversb, Cidr.covers.
  rewrite andb_true_iff, !Z.leb_le. reflexivity.
Qed.

Lemma not_covers (b : Cidr.Block) (ip : Z) :
  Wiring.coversb b ip = false -> ~ Cidr.covers b ip.
Proof.
  intros Hb Hc. apply coversb_spec in Hc. congruence.
Qed.

Lemma distinctb_sound (l : list string) : distinctb l = true -> NoDup l.
Proof.
  induction l as [|x rest IH]; simpl; intros H; constructor.
  - apply andb_true_iff in H. destruct H as [Hx _].
    apply negb_true_iff in Hx. intros Hin.
    assert (Hex : existsb (String.eqb x) rest = true).
    { apply existsb_exists. exists x. split; [exact Hin|apply String.eqb_refl]. }
    congruence.
  - apply andb_true_iff in H. apply IH, H.
Qed.

(** A handle's target is a declared resource with that handle. *)
Lemma target_In (rs : list Resource) (h : Handle) (r : Resource) :
  Wiring.target rs h = Some r -> In r rs /\ handle_of r = h.
Proof.
  unfold Wiring.target. intros H. apply find_some in H.
  destruct H as [Hin He]. apply Handle_eqb_eq in He. auto.
Qed.

(** An edge joins two declared resources, the first of which holds a
    back-reference to the second. *)
Lemma edges_sound (rs : list Resource) (r r' : Resource) :
  In (r, r') (Wiring.edges rs) ->
  In r rs /\ In r' rs /\ exists a, In (handle_of r', a) (refs_of r).
Proof.
  unfold Wiring.edges. intros H.
  apply in_flat_map in H. destruct H as [x [Hx H]].
  apply in_flat_map in H. destruct H as [[h a] [Hha H]]. simpl in H.
  destruct (Wiring.target rs h) as [t|] eqn:Ht; [|contradiction].
  destruct H as [Heq | []]. inversion Heq; subst; clear Heq.
  apply target_In in Ht. destruct Ht as [Hin <-].
  split; [assumption|]. split; [assumption|]. exists a. exact Hha.
Qed.

(** In a graph with distinct handles every back-reference to a declared
    resource is an edge. *)
Lemma edges_complete (rs : list Resource) (r r' : Resource) (a : Attr) :
  NoDup (map handle_of rs) ->
  In r rs -> In r' rs -> In (handle_of r', a) (refs_of r) ->
  In (r, r') (Wiring.edges rs).
Proof.
  intros Hnd Hr Hr' Hrefs. unfold Wiring.edges.
  apply in_flat_map. exists r. split; [assumption|].
  apply in_flat_map. exists (handle_of r', a). split; [assumption|]. simpl.
  assert (Ht : Wiring.target rs (handle_of r') = Some r').
  { unfold Wiring.target. clear Hr Hrefs.
    induction rs as [|x rest IH]; [contradiction|]. simpl.
    simpl in Hnd. apply NoDup_cons_iff in Hnd. destruct Hnd as [Hx Hrest].
    destruct (Handle_eqb (handle_of r') (handle_of x)) eqn:E.
    - apply Handle_eqb_eq in E. destruct Hr' as [-> | Hin]; [reflexivity|].
      exfalso. apply Hx. rewrite <- E. now apply in_map.
    - destruct Hr' as [-> | Hin].
      + assert (Handle_eqb (handle_of r') (handle_of r') = true)
          by now apply Handle_eqb_eq.
        congruence.
      + now apply IH. }
  rewrite Ht. now left.
Qed.

(** A construct is unreferenced exactly when it is declared and no declared
    construct holds a back-reference to it. *)
Lemma unreferenced_spec (rs : list Resource) (r : Resource) :
  In r (Wiring.unreferenced rs) <->
  In r rs /\
  forall r' a, In r' rs -> ~ In (handle_of r, a) (refs_of r').
Proof.
  unfold Wiring.unreferenced. rewrite filter_In, negb_true_iff. split.
  - intros [Hin Hno]. split; [assumption|]. intros r' a Hr' Href.
    assert (Hex : existsb
              (fun r'0 => existsb (fun ha => Handle_eqb (fst ha) (handle_of r))
                                  (refs_of r'0)) rs = true).
    { apply existsb_exists. exists r'. split; [assumption|].
      apply existsb_exists. exists (handle_of r, a). split; [assumption|].
      now apply Handle_eqb_eq. }
    congruence.
  - intros [Hin Hno]. split; [assumption|].
    destruct (existsb _ rs) eqn:E; [|reflexivity].
    apply existsb_exists in E. destruct E as [r' [Hr' E]].
    apply existsb_exists in E. destruct E as [[h a] [Hha E]].
    apply Handle_eqb_eq in E. simpl in E. subst h.
    exfalso. exact (Hno r' a Hr' Hha).
Qed.

Ltac normal_list :=
  match goal with
  | |- Forall ?P ?l =>
      let l' := eval vm_compute in l in change (Forall P l')
  end.

(** X1.  The reserved load-balancer address 10.0.0.10 lies in the CIDR block
    of the subnetwork its address resource names (the application
    subnetwork) and in the block of neither other subnetwork. *)
Theorem StackA_address_in_its_subnetwork :
  forall (v : Version) (scope : App) (sid : string),
    has_stack sid (app_children scope) = false ->
    exists this scope',
      StackA v scope sid = Ok (this, scope') /\
      address_in_its_subnetwork (children this).
Proof.
  intros v scope sid Hfresh.
  do 2 eexists. split; [apply StackA_constructs; exact Hfresh|].
  cbn [children]. unfold address_in_its_subnetwork.
  destruct v;
    (do 4 eexists;
     split; [solve_the|]; split; [solve_the|]; split; [reflexivity|];
     split; [solve_the|]; split; [solve_the|];
     split; [apply coversb_spec; reflexivity|];
     normal_list;
     repeat (apply Forall_cons;
             [ first [ left; reflexivity
                     | right; eexists; split;
                       [reflexivity | apply not_covers; reflexivity] ] | ]);
     apply Forall_nil).
Qed.

Lemma StackA_address_in_its_subnetwork_witness :
  has_stack "lab" (app_children (mkApp [])) = false /\
  exists this scope',
    StackA main_ts (mkApp []) "lab" = Ok (this, scope') /\
    address_in_its_subnetwork (children this).
Proof.
  split; [reflexivity|].
  apply StackA_address_in_its_subnetwork. reflexivity.
Defined.

(** X2.  Every forwarding rule that is given an address resource as its
    [ipAddress] is declared with the same subnetwork, project and region as
    that address, and the subnetwork of the producer's forwarding rule
    belongs to the network the rule is declared with. *)
Theorem StackA_rules_agree_with_addresses :
  forall (v : Version) (scope : App) (sid : string),
    has_stack sid (app_children scope) = false ->
    exists this scope',
      StackA v scope sid = Ok (this, scope') /\
      rules_agree_with_addresses (children this).
Proof.
  intros v scope sid Hfresh.
  do 2 eexists. split; [apply StackA_constructs; exact Hfresh|].
  cbn [children]. unfold rules_agree_with_addresses.
  destruct v;
    (split; [|split];
     [ do 2 eexists; split;
       [vm_compute; right; left; reflexivity | solve_the]
     | normal_list;
       repeat (apply Forall_cons;
               [ let addr := fresh "addr" in let H := fresh "H" in
                 intros addr H; vm_compute in H;
                 first [ discriminate H
                       | inversion H; subst; repeat split; reflexivity ] | ]);
       apply Forall_nil
     | do 3 eexists;
       split; [solve_the|]; split; [solve_the|]; split; solve_the ]).
Qed.

Lemma StackA_rules_agree_with_addresses_witness :
  has_stack "lab" (app_children (mkApp [])) = false /\
  exists this scope',
    StackA main_ts (mkApp []) "lab" = Ok (this, scope') /\
    rules_agree_with_addresses (children this).
Proof.
  split; [reflexivity|].
  apply StackA_rules_agree_with_addresses. reflexivity.
Defined.

(** X3.  The single network the service attachment accepts is the network of
    the project that the consumer's forwarding rule, whose target is that
    attachment, is declared with. *)
Theorem StackA_accept_list_admits_consumer :
  forall (v : Version) (scope : App) (sid : string),
    has_stack sid (app_children scope) = false ->
    exists this scope',
      StackA v scope sid = Ok (this, scope') /\
      accept_list_admits_consumer (children this).
Proof.
  intros v scope sid Hfresh.
  do 2 eexists. split; [apply StackA_constructs; exact Hfresh|].
  cbn [children]. unfold accept_list_admits_consumer.
  destruct v;
    (do 4 eexists;
     split; [solve_the|]; split; [solve_the|]; split; [solve_the|];
     split; [reflexivity|]; split; reflexivity).
Qed.

Lemma StackA_accept_list_admits_consumer_witness :
  has_stack "lab" (app_children (mkApp [])) = false /\
  exists this scope',
    StackA part_000 (mkApp []) "lab" = Ok (this, scope') /\
    accept_list_admits_consumer (children this).
Proof.
  split; [reflexivity|].
  apply StackA_accept_list_admits_consumer. reflexivity.
Defined.

(** X4.  Besides the provider, only the consumer's address and forwarding
    rule carry a [project]; every other construct is in the provider's
    project.  Exactly one back-reference joins constructs of different
    projects: the consumer forwarding rule's reference to the service
    attachment. *)
Theorem StackA_one_cross_project_reference :
  forall (v : Version) (scope : App) (sid : string),
    has_stack sid (app_children scope) = false ->
    exists this scope',
      StackA v scope sid = Ok (this, scope') /\
      one_cross_project_reference (children this).
Proof.
  intros v scope sid Hfresh.
  do 2 eexists. split; [apply StackA_constructs; exact Hfresh|].
  cbn [children]. unfold one_cross_project_reference.
  destruct v;
    (do 2 eexists;
     split; [solve_the|]; split; [solve_the|]; split; solve_the).
Qed.

Lemma StackA_one_cross_project_reference_witness :
  has_stack "lab" (app_children (mkApp [])) = false /\
  exists this scope',
    StackA main_ts (mkApp []) "lab" = Ok (this, scope') /\
    one_cross_project_reference (children this).
Proof.
  split; [reflexivity|].
  apply StackA_one_cross_project_reference. reflexivity.
Defined.

(** ** From the first version to the second *)

(** Porting leaves alone every string outside the five it respells. *)
Lemma port_string_other (s : string) :
  ~ In s ["app-subnet"; "proxy-subnet"; "psc-subnet"; "loadbalancer";
          "project-a"] ->
  Port.port_string s = s.
Proof.
  intros Hs. unfold Port.port_string.
  repeat match goal with
         | |- context [String.eqb s ?c] =>
             destruct (String.eqb_spec s c) as [-> | _];
             [exfalso; apply Hs; simpl; tauto|]
         end.
  reflexivity.
Qed.

(** X5.  The second version is the first with four construct ids (and the
    names equal to them) respelled, the provider's project respelled, and
    the producer forwarding rule's [ipAddress] left out; nothing else
    differs, in any construct, property or order. *)
Theorem second_version_is_first_ported :
  forall (scope : App) (sid : string),
    has_stack sid (app_children scope) = false ->
    exists m scope_m p scope_p,
      Main.StackA scope sid = Ok (m, scope_m) /\
      Part000.StackA scope sid = Ok (p, scope_p) /\
      Port.port (children m) = children p.
Proof.
  intros scope sid Hfresh.
  do 4 eexists.
  split; [apply (StackA_constructs main_ts); exact Hfresh|].
  split; [apply (StackA_constructs part_000); exact Hfresh|].
  vm_compute. reflexivity.
Qed.

Lemma second_version_is_first_ported_witness :
  has_stack "lab" (app_children (mkApp [])) = false /\
  exists m scope_m p scope_p,
    Main.StackA (mkApp []) "lab" = Ok (m, scope_m) /\
    Part000.StackA (mkApp []) "lab" = Ok (p, scope_p) /\
    Port.port (children m) = children p.
Proof.
  split; [reflexivity|].
  apply second_version_is_first_ported. reflexivity.
Defined.

(** X6.  The constructs that nothing refers to are the provider, the proxy
    subnetwork, the IAM member and the consumer's forwarding rule; in the
    second version the reserved load-balancer address is unreferenced as
    well, since the forwarding rule there has no [ipAddress]. *)
Theorem StackA_unreferenced_constructs :
  forall (v : Version) (scope : App) (sid : string),
    has_stack sid (app_children scope) = false ->
    exists this scope',
      StackA v scope sid = Ok (this, scope') /\
      map r_id (Wiring.unreferenced (children this)) =
        match v with
        | main_ts =>
            ["google"; "proxy-subnet"; "invoker"; "forwarding-rule-psc"]
        | part_000 =>
            ["google"; "subnet-proxy"; "invoker"; "loadbalancer-address";
             "forwarding-rule-psc"]
        end.
Proof.
  intros v scope sid Hfresh.
  do 2 eexists. split; [apply StackA_constructs; exact Hfresh|].
  cbn [children]. destruct v; vm_compute; reflexivity.
Qed.

Lemma StackA_unreferenced_constructs_witness :
  has_stack "lab" (app_children (mkApp [])) = false /\
  exists this scope',
    StackA part_000 (mkApp []) "lab" = Ok (this, scope') /\
    map r_id (Wiring.unreferenced (children this)) =
      ["google"; "subnet-proxy"; "invoker"; "loadbalancer-address";
       "forwarding-rule-psc"].
Proof.
  split; [reflexivity|].
  apply (StackA_unreferenced_constructs part_000). reflexivity.
Defined.

(** ** The program in any world *)

Lemma nth_error_snoc {A : Type} (l : list A) (x : A) :
  nth_error (l ++ [x]) (length l) = Some x.
Proof. induction l as [|h t IH]; simpl; [reflexivity | exact IH]. Qed.

Lemma update_nth_snoc {A : Type} (l : list A) (x y : A) :
  update_nth (length l) y (l ++ [x]) = (l ++ [y])%list.
Proof.
  induction l as [|h t IH]; simpl; [reflexivity | now rewrite IH].
Qed.


(** ** Names *)



(** ** Imports *)

Ltac pick_declared :=
  match goal with
  | |- exists r, In r ?rs /\ r_type r = ?t =>
      let l := eval vm_compute in (of_type t rs) in
      match l with
      | ?x :: _ =>
          exists x; split;
          [ vm_compute; repeat (first [left; reflexivity | right])
          | reflexivity ]
      end
  end.

(** X9.  Every resource class the file imports is instantiated by the
    constructor at least once: no import is unused. *)
Theorem StackA_uses_every_import :
  forall (v : Version) (scope : App) (sid : string),
    has_stack sid (app_children scope) = false ->
    exists this scope',
      StackA v scope sid = Ok (this, scope') /\
      forall t : ResourceType,
        exists r, In r (children this) /\ r_type r = t.
Proof.
  intros v scope sid Hfresh.
  do 2 eexists. split; [apply StackA_constructs; exact Hfresh|].
  cbn [children]. intros t. destruct v; destruct t; pick_declared.
Qed.

Lemma StackA_uses_every_import_witness :
  has_stack "lab" (app_children (mkApp [])) = false /\
  exists this scope',
    StackA main_ts (mkApp []) "lab" = Ok (this, scope') /\
    forall t : ResourceType,
      exists r, In r (children this) /\ r_type r = t.
Proof.
  split; [reflexivity|].
  apply StackA_uses_every_import. reflexivity.
Defined.
